(** * verdaccio-gitlab-oidc-auth: the plugin of [src/plugin.ts] and its groups

    A shallow embedding of the Verdaccio auth plugin [GitLabOidcAuth]
    ([src/plugin.ts], with the declarations of [src/types.ts]) and the
    properties of its group derivation, its constructor and its
    [authenticate] entry point.

    The JavaScript values the plugin reads from a decoded JWT payload are
    modelled by [Js.value]; the [jose] library ([jwtVerify],
    [createRemoteJWKSet]) and the [URL] constructor are collaborators whose
    answers are taken from a record [Jose]; every call the plugin makes to a
    collaborator, to its logger or to its callback is recorded in a trace
    of [Event]s. *)

From Stdlib Require Import String Ascii List ZArith Bool Lia DecimalString.
Import ListNotations.
Local Open Scope string_scope.
Local Open Scope list_scope.

(** ** JavaScript values and the primitives the plugin applies to them *)

Module Js.

(** The largest safe integer of JavaScript, [Number.MAX_SAFE_INTEGER]. *)
Definition MAX_SAFE_INTEGER : Z := 9007199254740991.

(** A property of a decoded JSON payload, as JavaScript sees it.
    [Undefined] is what reading an absent property gives. [Num] is a safe
    integer (an id, a timestamp): these are the numbers that are their own
    float64 and print as their decimal digits. The plugin can only test a
    value for truthiness, compare it with a string or print it in a
    template literal, so the values it cannot tell apart otherwise carry
    the text that [ToString] gives for them: [Float] is any other number
    of a JSON text, a fraction or one beyond the safe integers (never zero
    and never NaN, hence truthy), and [Object] is an array or an object.
    An object whose conversion to a string throws (one with an own
    [toString] that is not a function) is not a value of this type. *)
Inductive value : Type :=
| Undefined
| Null
| Bool (b : bool)
| Num (n : Z) (safe : (Z.abs n <=? MAX_SAFE_INTEGER)%Z = true)
| Float (image : string)
| Str (s : string)
| Object (image : string).

(** [ToBoolean]: what [if (v)] tests. *)
Definition truthy (v : value) : bool :=
  match v with
  | Undefined | Null => false
  | Bool b => b
  | Num n _ => negb (Z.eqb n 0)
  | Float _ => true
  | Str s => negb (String.eqb s "")
  | Object _ => true
  end.

(** [ToString], as a template literal applies it. A safe integer prints
    as its decimal digits, with a minus sign when negative. *)
Definition ToString (v : value) : string :=
  match v with
  | Undefined => "undefined"
  | Null => "null"
  | Bool true => "true"
  | Bool false => "false"
  | Num n _ => NilZero.string_of_int (Z.to_int n)
  | Float image => image
  | Str s => s
  | Object image => image
  end.

(** [v === s] for a string literal [s]: no coercion, so only a string
    can be equal to it. *)
Definition strict_eq_str (v : value) (s : string) : bool :=
  match v with
  | Str t => String.eqb t s
  | _ => false
  end.

(** [a ?? b] on an optional property. *)
Definition nullish {A : Type} (a : option A) (b : A) : A :=
  match a with
  | Some x => x
  | None => b
  end.

(** [!s] on an optional string property: absent or empty. *)
Definition falsy_string (s : option string) : bool :=
  match s with
  | None => true
  | Some t => String.eqb t ""
  end.

(** [arr.push(x)]. *)
Definition push {A : Type} (arr : list A) (x : A) : list A := arr ++ [x].

Definition is_slash (c : ascii) : bool := Ascii.eqb c "/".

(** Does [/\/+$/] match at the first character of [c :: s], that is, is
    the whole rest of the subject made of slashes? *)
Fixpoint only_slashes (s : string) : bool :=
  match s with
  | EmptyString => true
  | String c s' => is_slash c && only_slashes s'
  end.

(** [s.replace(/\/+$/, "")]: the regular expression is tried at each
    position from the left; the first position where it matches is the
    start of a non-empty run of slashes that reaches the end of [s], and
    that run is replaced by the empty string. *)
Fixpoint replace_trailing_slashes (s : string) : string :=
  match s with
  | EmptyString => EmptyString
  | String c s' =>
      if is_slash c && only_slashes s' then EmptyString
      else String c (replace_trailing_slashes s')
  end.

(** [n] slashes. *)
Fixpoint slashes (n : nat) : string :=
  match n with
  | O => EmptyString
  | S k => String "/" (slashes k)
  end.

(** [s.endsWith("/")]. *)
Fixpoint ends_with_slash (s : string) : bool :=
  match s with
  | EmptyString => false
  | String c EmptyString => is_slash c
  | String _ s' => ends_with_slash s'
  end.

(** [s.includes(":")]. *)
Fixpoint includes_colon (s : string) : bool :=
  match s with
  | EmptyString => false
  | String c s' => Ascii.eqb c ":" || includes_colon s'
  end.

(** The text after the first [":"] of [s], when there is one: the path a
    scoped group identifier is about. *)
Fixpoint after_colon (s : string) : option string :=
  match s with
  | EmptyString => None
  | String c s' => if Ascii.eqb c ":" then Some s' else after_colon s'
  end.

(** An [Error] object; the plugin reads its [message] only. *)
Record Error : Type := { message : string }.

End Js.

(** ** [src/types.ts] *)

Module Types.

(** The plugin's section of Verdaccio's [config.yaml]. The two required
    properties are optional here because the constructor tests them.
    [jwks_cache_ttl] is a whole number of seconds, small enough for its
    product by 1000 to be a safe integer (some 285000 years): for these
    the float64 product of [verifyAndAuthenticate] is the product in
    [Z]. *)
Record PluginConfig : Type := {
  gitlab_url : option string;
  audience : option string;
  ci_username : option string;
  jwks_cache_ttl : option Z;
  project_groups : option bool
}.

(** The payload [jwtVerify] hands back, cast to [GitLabJwtClaims] without
    any check: each property holds whatever the token carried. *)
Record GitLabJwtClaims : Type := {
  iss : Js.value;
  aud : Js.value;
  exp : Js.value;
  iat : Js.value;
  sub : Js.value;
  ref : Js.value;
  ref_type : Js.value;
  ref_protected : Js.value;
  project_id : Js.value;
  project_path : Js.value;
  namespace_path : Js.value;
  user_login : Js.value;
  pipeline_source : Js.value;
  job_id : Js.value
}.

Definition DEFAULT_CI_USERNAME : string := "gitlab-oidc".
Definition DEFAULT_JWKS_CACHE_TTL : Z := 86400.

End Types.

Import Types.

(** ** The collaborators of [src/plugin.ts] *)

(** What [createRemoteJWKSet(url, { cacheMaxAge })] returns: the key source
    for one URL. *)
Record RemoteJWKSet : Type := {
  jwks_url : string;
  cacheMaxAge : Z
}.

(** The options object of the [jwtVerify] call. *)
Record VerifyOptions : Type := {
  algorithms : list string;
  issuer : string;
  expected_audience : string
}.

(** The answers of the outside world to one [authenticate] call:
    [new URL(text)] gives the URL's [href] or throws, and [jwtVerify]
    resolves to the decoded payload or rejects. *)
Record Jose : Type := {
  new_URL : string -> Js.Error + string;
  jwtVerify : string -> RemoteJWKSet -> VerifyOptions -> Js.Error + GitLabJwtClaims
}.

(** The second argument of Verdaccio's [AuthCallback]: [false] or the
    groups of the authenticated user. *)
Inductive AuthResult : Type :=
| NotAuthenticated
| Groups (groups : list string).

(** How the callback handed to [authenticate] ends when it is called with
    these two arguments: it returns ([None]) or it throws. *)
Definition CallbackBehaviour : Type := option Js.Error -> AuthResult -> option Js.Error.

(** How a call of [authenticate] ends: normally, by throwing to its
    caller, or with a promise chain that is rejected and has no handler
    left. *)
Inductive Completion : Type :=
| Settled
| Thrown (e : Js.Error)
| Unhandled (e : Js.Error).

(** The calls the plugin makes, in the order it makes them. *)
Inductive Event : Type :=
| LoggerInfo (template : string) (data : list (string * Js.value))
| LoggerWarn (template : string) (data : list (string * Js.value))
| NewURL (text : string)
| CreateRemoteJWKSet (href : string) (cacheMaxAge : Z)
| JwtVerify (token : string) (jwks : RemoteJWKSet) (options : VerifyOptions)
| DeriveGroups (claims : GitLabJwtClaims)
| Callback (err : option Js.Error) (result : AuthResult).

(** ** The plugin object *)

(** The fields of a [GitLabOidcAuth] instance ([logger] is the collaborator
    behind the [LoggerInfo] and [LoggerWarn] events). *)
Record GitLabOidcAuth : Type := {
  gitlabUrl : string;
  audience : string;
  ciUsername : string;
  jwksCacheTtl : Z;
  projectGroups : bool;
  jwks : option RemoteJWKSet
}.

Definition with_jwks (this : GitLabOidcAuth) (j : RemoteJWKSet) : GitLabOidcAuth :=
  {| gitlabUrl := gitlabUrl this;
     audience := audience this;
     ciUsername := ciUsername this;
     jwksCacheTtl := jwksCacheTtl this;
     projectGroups := projectGroups this;
     jwks := Some j |}.

(** A method body: it starts from the instance, leaves a trace and the
    instance as it then is, and either throws or returns. *)
Definition Method (A : Type) : Type :=
  GitLabOidcAuth -> list Event * GitLabOidcAuth * (Js.Error + A).

Definition ret {A : Type} (a : A) : Method A :=
  fun this => ([], this, inr a).

Definition bind {A B : Type} (m : Method A) (k : A -> Method B) : Method B :=
  fun this =>
    match m this with
    | (tr, this', inl e) => (tr, this', inl e)
    | (tr, this', inr a) =>
        match k a this' with
        | (tr', this'', r) => (tr ++ tr', this'', r)
        end
    end.

Definition emit (e : Event) : Method unit :=
  fun this => ([e], this, inr tt).

Definition self : Method GitLabOidcAuth :=
  fun this => ([], this, inr this).

Definition set_jwks (j : RemoteJWKSet) : Method unit :=
  fun this => ([], with_jwks this j, inr tt).

Definition lift {A : Type} (r : Js.Error + A) : Method A :=
  fun this => ([], this, r).

Notation "x <- m ;; k" := (bind m (fun x => k))
  (at level 61, m at next level, right associativity).
Notation "m ;;; k" := (bind m (fun _ => k))
  (at level 61, right associativity).

(** [constructor(config, options)]: it throws, or logs and returns the new
    instance. Past the two tests both required properties are present, and
    [Js.nullish _ ""] reads them. *)
Definition constructor (config : PluginConfig) : list Event * (Js.Error + GitLabOidcAuth) :=
  if Js.falsy_string (gitlab_url config) then
    ([], inl {| Js.message :=
      "verdaccio-gitlab-oidc-auth: 'gitlab_url' is required in plugin configuration" |})
  else if Js.falsy_string (Types.audience config) then
    ([], inl {| Js.message :=
      "verdaccio-gitlab-oidc-auth: 'audience' is required in plugin configuration" |})
  else
    let this :=
      {| gitlabUrl := Js.replace_trailing_slashes (Js.nullish (gitlab_url config) "");
         audience := Js.nullish (Types.audience config) "";
         ciUsername := Js.nullish (ci_username config) DEFAULT_CI_USERNAME;
         jwksCacheTtl := Js.nullish (jwks_cache_ttl config) DEFAULT_JWKS_CACHE_TTL;
         projectGroups := Js.nullish (project_groups config) false;
         jwks := None |} in
    ([LoggerInfo
        "gitlab-oidc-auth: initialized (gitlab_url=@{gitlab_url}, audience=@{audience})"
        [("gitlab_url", Js.Str (gitlabUrl this)); ("audience", Js.Str (audience this))]],
     inr this).

(** [deriveGroups(claims)]. *)
Definition deriveGroups (this : GitLabOidcAuth) (claims : GitLabJwtClaims) : list string :=
  let groups := ["gitlab-ci"] in
  let groups :=
    if Js.strict_eq_str (ref_protected claims) "true"
    then Js.push groups "gitlab-ci-protected"
    else groups in
  if projectGroups this then
    let groups :=
      if Js.truthy (namespace_path claims)
      then Js.push groups ("gitlab:" ++ Js.ToString (namespace_path claims))%string
      else groups in
    if Js.truthy (project_path claims)
    then Js.push groups ("gitlab:" ++ Js.ToString (project_path claims))%string
    else groups
  else groups.

Section Authenticate.

Variable lib : Jose.

(** [verifyAndAuthenticate(token)]: an [async] method, so a throw
    anywhere in it is the rejection of the promise it returns. *)
Definition verifyAndAuthenticate (token : string) : Method (list string) :=
  this <- self ;;
  keys <- match jwks this with
          | Some j => ret j
          | None =>
              let text := (gitlabUrl this ++ "/oauth/discovery/keys")%string in
              emit (NewURL text) ;;;
              href <- lift (new_URL lib text) ;;
              let j := {| jwks_url := href;
                          cacheMaxAge := jwksCacheTtl this * 1000 |} in
              emit (CreateRemoteJWKSet href (jwksCacheTtl this * 1000)) ;;;
              set_jwks j ;;;
              ret j
          end ;;
  let options := {| algorithms := ["RS256"];
                    issuer := gitlabUrl this;
                    expected_audience := audience this |} in
  emit (JwtVerify token keys options) ;;;
  payload <- lift (jwtVerify lib token keys options) ;;
  emit (LoggerInfo
          "gitlab-oidc-auth: verified token for @{project} ref=@{ref} job=@{job}"
          [("project", project_path payload); ("ref", ref payload);
           ("job", job_id payload)]) ;;;
  emit (DeriveGroups payload) ;;;
  this' <- self ;;
  ret (deriveGroups this' payload).

(** [authenticate(user, password, cb)], followed until the promise of
    [verifyAndAuthenticate] has settled and its handler has run, for a
    callback that returns, as Verdaccio's does ([authenticate_cb] below
    is the method for any callback, and is this one when the callback
    returns). The logger returns; a rejection carries an [Error], as all
    rejections of [jose] and of [new URL] do. *)
Definition authenticate (this : GitLabOidcAuth) (user password : string)
  : list Event * GitLabOidcAuth :=
  if negb (String.eqb user (ciUsername this)) then
    ([Callback None NotAuthenticated], this)
  else
    match verifyAndAuthenticate password this with
    | (tr, this', inr groups) =>
        (tr ++ [Callback None (Groups groups)], this')
    | (tr, this', inl err) =>
        (tr ++ [LoggerWarn
                  "gitlab-oidc-auth: authentication failed — @{error}"
                  [("error", Js.Str (Js.message err))];
                Callback None NotAuthenticated], this')
    end.

(** [authenticate(user, password, cb)] for any callback. In the chain
    [.then((groups) => cb(null, groups)).catch(handler)] the handler also
    catches what the callback throws when it is given the groups: it then
    logs that error and calls the callback a second time, with [null] and
    [false]. What the callback throws inside the handler is the rejection
    the chain ends with, and what it throws for another user is thrown by
    [authenticate] itself. *)
Definition authenticate_cb (cb : CallbackBehaviour) (this : GitLabOidcAuth)
    (user password : string) : list Event * GitLabOidcAuth * Completion :=
  let handler (err : Js.Error) : list Event * Completion :=
    ([LoggerWarn
        "gitlab-oidc-auth: authentication failed — @{error}"
        [("error", Js.Str (Js.message err))];
      Callback None NotAuthenticated],
     match cb None NotAuthenticated with
     | None => Settled
     | Some thrown => Unhandled thrown
     end) in
  if negb (String.eqb user (ciUsername this)) then
    ([Callback None NotAuthenticated], this,
     match cb None NotAuthenticated with
     | None => Settled
     | Some thrown => Thrown thrown
     end)
  else
    match verifyAndAuthenticate password this with
    | (tr, this', inr groups) =>
        match cb None (Groups groups) with
        | None => (tr ++ [Callback None (Groups groups)], this', Settled)
        | Some thrown =>
            (tr ++ [Callback None (Groups groups)] ++ fst (handler thrown), this',
             snd (handler thrown))
        end
    | (tr, this', inl err) => (tr ++ fst (handler err), this', snd (handler err))
    end.

(** [adduser(_user, _password, cb)]. *)
Definition adduser (this : GitLabOidcAuth) (_user _password : string)
  : list Event * GitLabOidcAuth :=
  ([Callback None NotAuthenticated], this).

End Authenticate.

(** What the caller of [authenticate] observes: the arguments of the
    callback invocations of a trace. *)
Fixpoint callbacks (tr : list Event) : list (option Js.Error * AuthResult) :=
  match tr with
  | [] => []
  | Callback err result :: tr' => (err, result) :: callbacks tr'
  | _ :: tr' => callbacks tr'
  end.

(** The texts given to [new URL] in a trace. *)
Fixpoint url_texts (tr : list Event) : list string :=
  match tr with
  | [] => []
  | NewURL text :: tr' => text :: url_texts tr'
  | _ :: tr' => url_texts tr'
  end.

(** The issuers that the [jwtVerify] calls of a trace expect. *)
Fixpoint expected_issuers (tr : list Event) : list string :=
  match tr with
  | [] => []
  | JwtVerify _ _ options :: tr' => issuer options :: expected_issuers tr'
  | _ :: tr' => expected_issuers tr'
  end.

(** Is this event a call to a collaborator that verifies a token or
    fetches keys, or the derivation of groups? *)
Definition is_verification_work (e : Event) : bool :=
  match e with
  | NewURL _ | CreateRemoteJWKSet _ _ | JwtVerify _ _ _ | DeriveGroups _ => true
  | _ => false
  end.

(** ** Claim sets of [test/fixtures.ts]

    The fixtures leave [iss], [aud], [exp] and [iat] to the helper that
    signs the token; they are absent here, and no method reads them. *)

(** Push to a protected branch ([main]) of a top-level group project. *)
Definition PROTECTED_BRANCH_PUSH : GitLabJwtClaims :=
  {| iss := Js.Undefined; aud := Js.Undefined; exp := Js.Undefined; iat := Js.Undefined;
     sub := Js.Str "project_path:my-group/my-project:ref_type:branch:ref:main";
     ref := Js.Str "main";
     ref_type := Js.Str "branch";
     ref_protected := Js.Str "true";
     project_id := Js.Str "42";
     project_path := Js.Str "my-group/my-project";
     namespace_path := Js.Str "my-group";
     user_login := Js.Str "ci-bot";
     pipeline_source := Js.Str "push";
     job_id := Js.Str "10001" |}.

(** [PROTECTED_BRANCH_PUSH.expectedGroupsWithProjects]: what the fixture
    expects of [authenticate] when [project_groups] is enabled. *)
Definition PROTECTED_BRANCH_PUSH_expectedGroupsWithProjects : list string :=
  ["gitlab-ci"; "gitlab-ci-protected";
   "gitlab-ci:my-group"; "gitlab-ci-protected:my-group";
   "gitlab-ci:my-group/my-project"; "gitlab-ci-protected:my-group/my-project"].

(** [claims] with three of its properties replaced. *)
Definition with_paths (claims : GitLabJwtClaims) (protected namespace project : Js.value)
  : GitLabJwtClaims :=
  {| iss := iss claims; aud := aud claims; exp := exp claims; iat := iat claims;
     sub := sub claims; ref := ref claims; ref_type := ref_type claims;
     ref_protected := protected;
     project_id := project_id claims;
     project_path := project;
     namespace_path := namespace;
     user_login := user_login claims;
     pipeline_source := pipeline_source claims;
     job_id := job_id claims |}.

(** A payload none of whose claims is present. *)
Definition empty_payload : GitLabJwtClaims :=
  {| iss := Js.Undefined; aud := Js.Undefined; exp := Js.Undefined; iat := Js.Undefined;
     sub := Js.Undefined; ref := Js.Undefined; ref_type := Js.Undefined;
     ref_protected := Js.Undefined; project_id := Js.Undefined;
     project_path := Js.Undefined; namespace_path := Js.Undefined;
     user_login := Js.Undefined; pipeline_source := Js.Undefined;
     job_id := Js.Undefined |}.

(** A payload with the registered claims that [jwtVerify] has checked
    or that every signed token carries ([iss], [aud], [exp], [iat]) and
    none of the claims of a GitLab job. *)
Definition registered_claims_only : GitLabJwtClaims :=
  {| iss := Js.Str "https://gitlab.example.com";
     aud := Js.Str "https://npm.example.com";
     exp := Js.Num 1767225900 eq_refl;
     iat := Js.Num 1767225600 eq_refl;
     sub := Js.Undefined; ref := Js.Undefined; ref_type := Js.Undefined;
     ref_protected := Js.Undefined; project_id := Js.Undefined;
     project_path := Js.Undefined; namespace_path := Js.Undefined;
     user_login := Js.Undefined; pipeline_source := Js.Undefined;
     job_id := Js.Undefined |}.

(** The configuration of the tests' [createPlugin], with and without
    [project_groups]. *)
Definition test_config (groups : option bool) : PluginConfig :=
  {| gitlab_url := Some "https://gitlab.example.com";
     Types.audience := Some "https://npm.example.com";
     ci_username := None;
     jwks_cache_ttl := None;
     project_groups := groups |}.

(** The instance the constructor builds from [test_config]. *)
Definition test_plugin (groups : bool) : GitLabOidcAuth :=
  {| gitlabUrl := "https://gitlab.example.com";
     audience := "https://npm.example.com";
     ciUsername := "gitlab-oidc";
     jwksCacheTtl := 86400;
     projectGroups := groups;
     jwks := None |}.

(** A [jose] that accepts every URL and resolves the token ["valid"] to
    [payload], rejecting every other token. *)
Definition test_jose (payload : GitLabJwtClaims) : Jose :=
  {| new_URL := fun text => inr text;
     jwtVerify := fun token _ _ =>
       if String.eqb token "valid" then inr payload
       else inl {| Js.message := "Invalid Compact JWS" |} |}.

(** A [jose] that resolves the token ["valid"] to [payload] only when it
    is asked as the plugin of [test_config] asks: with the keys of
    ["https://gitlab.example.com/oauth/discovery/keys"], RS256 allowed,
    and the issuer and audience that [payload] carries. It rejects every
    other call. *)
Definition checking_jose (payload : GitLabJwtClaims) : Jose :=
  {| new_URL := fun text => inr text;
     jwtVerify := fun token keys options =>
       if String.eqb token "valid"
          && String.eqb (jwks_url keys) "https://gitlab.example.com/oauth/discovery/keys"
          && existsb (String.eqb "RS256") (algorithms options)
          && Js.strict_eq_str (iss payload) (issuer options)
          && Js.strict_eq_str (aud payload) (expected_audience options)
       then inr payload
       else inl {| Js.message := "JWT verification failed" |} |}.

(** The [jwtVerify] calls of a trace, each with its three arguments. *)
Fixpoint verify_calls (tr : list Event) : list (string * RemoteJWKSet * VerifyOptions) :=
  match tr with
  | [] => []
  | JwtVerify token keys options :: tr' => (token, keys, options) :: verify_calls tr'
  | _ :: tr' => verify_calls tr'
  end.

(** The two messages the constructor throws with. *)
Definition gitlab_url_required : string :=
  "verdaccio-gitlab-oidc-auth: 'gitlab_url' is required in plugin configuration".
Definition audience_required : string :=
  "verdaccio-gitlab-oidc-auth: 'audience' is required in plugin configuration".

(** * Properties *)

(** ** JavaScript primitives *)

Lemma strict_eq_str_spec (v : Js.value) (s : string) :
  Js.strict_eq_str v s = true <-> v = Js.Str s.
Proof.
  destruct v as [| | b | n safe | f | t | o]; simpl;
    try (split; [discriminate | discriminate]).
  rewrite String.eqb_eq. split; [intros -> | intros [= ->]]; reflexivity.
Qed.

Lemma strict_eq_str_other (v : Js.value) (s : string) :
  v <> Js.Str s -> Js.strict_eq_str v s = false.
Proof.
  intros Hv. destruct (Js.strict_eq_str v s) eqn:E; [| reflexivity].
  apply strict_eq_str_spec in E. contradiction.
Qed.

(** ** The shape of what [deriveGroups] returns *)

(** The entries [deriveGroups] pushes after the base identifier, written
    as one concatenation. *)
Lemma deriveGroups_eq (this : GitLabOidcAuth) (claims : GitLabJwtClaims) :
  deriveGroups this claims =
    ["gitlab-ci"]
    ++ (if Js.strict_eq_str (ref_protected claims) "true"
        then ["gitlab-ci-protected"] else [])
    ++ (if projectGroups this then
          (if Js.truthy (namespace_path claims)
           then [("gitlab:" ++ Js.ToString (namespace_path claims))%string] else [])
          ++ (if Js.truthy (project_path claims)
              then [("gitlab:" ++ Js.ToString (project_path claims))%string] else [])
        else []).
Proof.
  unfold deriveGroups, Js.push.
  destruct (Js.strict_eq_str (ref_protected claims) "true"),
    (projectGroups this), (Js.truthy (namespace_path claims)),
    (Js.truthy (project_path claims)); reflexivity.
Qed.

(** Every entry is a base identifier or ["gitlab:"] followed by a path. *)
Lemma deriveGroups_entries (this : GitLabOidcAuth) (claims : GitLabJwtClaims) (g : string) :
  In g (deriveGroups this claims) ->
  g = "gitlab-ci"
  \/ (g = "gitlab-ci-protected" /\ ref_protected claims = Js.Str "true")
  \/ (projectGroups this = true /\ exists path, g = ("gitlab:" ++ path)%string).
Proof.
  rewrite deriveGroups_eq. intros Hin.
  apply in_app_or in Hin as [Hin | Hin].
  { destruct Hin as [<- | []]. now left. }
  apply in_app_or in Hin as [Hin | Hin].
  { destruct (Js.strict_eq_str (ref_protected claims) "true") eqn:E;
      [| destruct Hin].
    destruct Hin as [<- | []]. right; left. split; [reflexivity |].
    now apply strict_eq_str_spec. }
  right; right.
  destruct (projectGroups this); [| destruct Hin]. split; [reflexivity |].
  apply in_app_or in Hin as [Hin | Hin].
  - destruct (Js.truthy (namespace_path claims)); [| destruct Hin].
    destruct Hin as [<- | []]. eexists; reflexivity.
  - destruct (Js.truthy (project_path claims)); [| destruct Hin].
    destruct Hin as [<- | []]. eexists; reflexivity.
Qed.

Lemma scoped_after_colon (path : string) :
  Js.after_colon ("gitlab:" ++ path) = Some path.
Proof. reflexivity. Qed.

(** What the code returns for the protected-branch fixture with
    [project_groups] enabled. *)
Example deriveGroups_protected_branch_push :
  deriveGroups (test_plugin true) PROTECTED_BRANCH_PUSH =
    ["gitlab-ci"; "gitlab-ci-protected"; "gitlab:my-group"; "gitlab:my-group/my-project"].
Proof. reflexivity. Qed.

(** [test/fixtures.ts] expects other scoped entries than [src/plugin.ts]
    pushes: six entries, the scoped ones named after ["gitlab-ci"] and
    ["gitlab-ci-protected"]. The base identifiers and the order of the
    scopes are the same on both sides. *)
Example deriveGroups_differs_from_fixture :
  deriveGroups (test_plugin true) PROTECTED_BRANCH_PUSH
    <> PROTECTED_BRANCH_PUSH_expectedGroupsWithProjects
  /\ firstn 2 (deriveGroups (test_plugin true) PROTECTED_BRANCH_PUSH)
     = firstn 2 PROTECTED_BRANCH_PUSH_expectedGroupsWithProjects
  /\ map Js.after_colon PROTECTED_BRANCH_PUSH_expectedGroupsWithProjects
     = [None; None; Some "my-group"; Some "my-group";
        Some "my-group/my-project"; Some "my-group/my-project"]
  /\ map Js.after_colon (deriveGroups (test_plugin true) PROTECTED_BRANCH_PUSH)
     = [None; None; Some "my-group"; Some "my-group/my-project"].
Proof.
  rewrite deriveGroups_protected_branch_push.
  split; [discriminate |]. repeat split.
Qed.

(** ** C1: the protected branch of [my-group/my-project] *)

(** C1: a defect of the code. For every claim set with
    [ref_protected = "true"], [project_path = "my-group/my-project"] and
    [namespace_path = "my-group"], with [project_groups] enabled,
    [deriveGroups] returns four entries: one ["gitlab:"] entry for each
    path and no protected entry for either. That is not the list of six
    entries that C1 states and that [test/fixtures.ts] expects of this
    very input, whether the base identifier is spelled ["ci"], as in C1,
    or ["gitlab-ci"], as in the fixture. *)
Theorem protected_my_project_gets_four_groups
    (this : GitLabOidcAuth) (claims : GitLabJwtClaims) :
  projectGroups this = true ->
  ref_protected claims = Js.Str "true" ->
  project_path claims = Js.Str "my-group/my-project" ->
  namespace_path claims = Js.Str "my-group" ->
  deriveGroups this claims =
    ["gitlab-ci"; "gitlab-ci-protected"; "gitlab:my-group"; "gitlab:my-group/my-project"]
  /\ deriveGroups this claims <> PROTECTED_BRANCH_PUSH_expectedGroupsWithProjects
  /\ deriveGroups this claims <>
       ["ci"; "ci-protected"; "ci:my-group"; "ci-protected:my-group";
        "ci:my-group/my-project"; "ci-protected:my-group/my-project"].
Proof.
  intros Hgroups Hprot Hproj Hns.
  assert (E : deriveGroups this claims =
                ["gitlab-ci"; "gitlab-ci-protected"; "gitlab:my-group";
                 "gitlab:my-group/my-project"]).
  { rewrite deriveGroups_eq, Hgroups, Hprot, Hproj, Hns. reflexivity. }
  rewrite E. repeat split; discriminate.
Qed.

Lemma protected_my_project_gets_four_groups_witness :
  projectGroups (test_plugin true) = true
  /\ deriveGroups (test_plugin true) PROTECTED_BRANCH_PUSH =
       ["gitlab-ci"; "gitlab-ci-protected"; "gitlab:my-group";
        "gitlab:my-group/my-project"]
  /\ deriveGroups (test_plugin true) PROTECTED_BRANCH_PUSH
     <> PROTECTED_BRANCH_PUSH_expectedGroupsWithProjects
  /\ deriveGroups (test_plugin true) PROTECTED_BRANCH_PUSH <>
       ["ci"; "ci-protected"; "ci:my-group"; "ci-protected:my-group";
        "ci:my-group/my-project"; "ci-protected:my-group/my-project"].
Proof.
  split; [reflexivity |].
  apply (protected_my_project_gets_four_groups (test_plugin true) PROTECTED_BRANCH_PUSH);
    reflexivity.
Defined.

(** ** C2: the namespace path is not expanded into its prefixes *)

(** C2, as stated, fails: for the protected claim set with
    [namespace_path = "a/b/c"] and [project_groups] enabled, the list has
    no entry ["ci:a"] and no entry ["ci:a/b"]; indeed no entry at all is
    scoped to the prefix ["a"] or to the prefix ["a/b"]. *)
Lemma namespace_prefixes_are_not_expanded :
  let groups :=
    deriveGroups (test_plugin true)
      (with_paths PROTECTED_BRANCH_PUSH (Js.Str "true") (Js.Str "a/b/c") (Js.Str "a/b/c/d")) in
  ~ In "ci:a" groups
  /\ ~ In "ci:a/b" groups
  /\ ~ (exists g, In g groups /\ (Js.after_colon g = Some "a" \/ Js.after_colon g = Some "a/b")).
Proof.
  cbv zeta. change (deriveGroups _ _) with
    ["gitlab-ci"; "gitlab-ci-protected"; "gitlab:a/b/c"; "gitlab:a/b/c/d"].
  repeat split.
  - intros [H | [H | [H | [H | []]]]]; discriminate H.
  - intros [H | [H | [H | [H | []]]]]; discriminate H.
  - intros [g [[<- | [<- | [<- | [<- | []]]]] [H | H]]]; discriminate H.
Qed.

(** C2, amended: with [project_groups] enabled and a non-empty
    [namespace_path], [deriveGroups] returns the base identifiers (the
    first one ["gitlab-ci"], none of them scoped), then entries scoped to
    the whole [namespace_path], at least one, then the entries scoped to
    the whole [project_path]: the list is made of these three parts, and
    no part holds an entry for a shorter prefix of its path. *)
Theorem deriveGroups_namespace_whole_path
    (this : GitLabOidcAuth) (claims : GitLabJwtClaims) (namespace : string) :
  projectGroups this = true ->
  namespace_path claims = Js.Str namespace ->
  namespace <> "" ->
  exists base namespace_entries project_entries,
    deriveGroups this claims = base ++ namespace_entries ++ project_entries
    /\ hd_error base = Some "gitlab-ci"
    /\ Forall (fun g => Js.after_colon g = None) base
    /\ namespace_entries <> []
    /\ Forall (fun g => Js.after_colon g = Some namespace) namespace_entries
    /\ Forall (fun g => Js.after_colon g = Some (Js.ToString (project_path claims)))
         project_entries.
Proof.
  intros Hgroups Hns Hne.
  exists (["gitlab-ci"] ++ (if Js.strict_eq_str (ref_protected claims) "true"
                            then ["gitlab-ci-protected"] else [])),
    [("gitlab:" ++ namespace)%string],
    (if Js.truthy (project_path claims)
     then [("gitlab:" ++ Js.ToString (project_path claims))%string] else []).
  assert (Htruthy : Js.truthy (Js.Str namespace) = true).
  { simpl. destruct (String.eqb_spec namespace ""); [contradiction | reflexivity]. }
  rewrite deriveGroups_eq, Hgroups, Hns, Htruthy. simpl Js.ToString.
  split; [now rewrite <- app_assoc |].
  split; [reflexivity |].
  split.
  { destruct (Js.strict_eq_str (ref_protected claims) "true"); repeat constructor. }
  split; [discriminate |].
  split; [repeat constructor |].
  destruct (Js.truthy (project_path claims)); repeat constructor.
Qed.

Lemma deriveGroups_namespace_whole_path_witness :
  "my-org/team-a/libs" <> ""
  /\ exists base namespace_entries project_entries,
       deriveGroups (test_plugin true)
         (with_paths PROTECTED_BRANCH_PUSH (Js.Str "true")
            (Js.Str "my-org/team-a/libs") (Js.Str "my-org/team-a/libs/core"))
       = base ++ namespace_entries ++ project_entries
       /\ hd_error base = Some "gitlab-ci"
       /\ Forall (fun g => Js.after_colon g = None) base
       /\ namespace_entries <> []
       /\ Forall (fun g => Js.after_colon g = Some "my-org/team-a/libs") namespace_entries
       /\ Forall (fun g => Js.after_colon g = Some "my-org/team-a/libs/core")
            project_entries.
Proof.
  split; [discriminate |].
  apply (deriveGroups_namespace_whole_path (test_plugin true)
           (with_paths PROTECTED_BRANCH_PUSH (Js.Str "true")
              (Js.Str "my-org/team-a/libs") (Js.Str "my-org/team-a/libs/core"))
           "my-org/team-a/libs");
    [reflexivity | reflexivity | discriminate].
Defined.

(** ** C3: only the string ["true"] is protected *)

(** C3: when [ref_protected] is not the string ["true"] (the boolean
    [true], an absent property, ["TRUE"], any other value), [deriveGroups]
    returns what it returns for [ref_protected = "false"], and no entry of
    the list is the protected base identifier (["gitlab-ci-protected"], or
    ["ci-protected"]) or starts with ["gitlab-ci-protected:"] or
    ["ci-protected:"]. *)
Theorem deriveGroups_not_protected (this : GitLabOidcAuth) (claims : GitLabJwtClaims) :
  ref_protected claims <> Js.Str "true" ->
  deriveGroups this claims =
    deriveGroups this
      (with_paths claims (Js.Str "false") (namespace_path claims) (project_path claims))
  /\ forall g, In g (deriveGroups this claims) ->
       g <> "gitlab-ci-protected"
       /\ g <> "ci-protected"
       /\ String.prefix "gitlab-ci-protected:" g = false
       /\ String.prefix "ci-protected:" g = false.
Proof.
  intros Hnot. split.
  - rewrite !deriveGroups_eq. simpl.
    rewrite (strict_eq_str_other _ _ Hnot). reflexivity.
  - intros g Hin.
    destruct (deriveGroups_entries this claims g Hin)
      as [-> | [[_ Hprot] | [_ [path ->]]]].
    + repeat split; discriminate.
    + contradiction.
    + repeat split; discriminate.
Qed.

Lemma deriveGroups_not_protected_witness :
  Js.Bool true <> Js.Str "true"
  /\ deriveGroups (test_plugin true)
       (with_paths PROTECTED_BRANCH_PUSH (Js.Bool true)
          (Js.Str "my-group") (Js.Str "my-group/my-project"))
     = ["gitlab-ci"; "gitlab:my-group"; "gitlab:my-group/my-project"].
Proof.
  split; [discriminate |].
  etransitivity.
  - apply (deriveGroups_not_protected (test_plugin true)
             (with_paths PROTECTED_BRANCH_PUSH (Js.Bool true)
                (Js.Str "my-group") (Js.Str "my-group/my-project"))).
    discriminate.
  - reflexivity.
Defined.

(** ** C4: without [project_groups] *)

(** C4: with [project_groups] disabled, [deriveGroups] returns
    ["gitlab-ci"] alone or followed by ["gitlab-ci-protected"]: one or two
    entries, none of which contains a [":"]. *)
Theorem deriveGroups_without_project_groups
    (this : GitLabOidcAuth) (claims : GitLabJwtClaims) :
  projectGroups this = false ->
  (deriveGroups this claims = ["gitlab-ci"]
   \/ deriveGroups this claims = ["gitlab-ci"; "gitlab-ci-protected"])
  /\ (length (deriveGroups this claims) = 1 \/ length (deriveGroups this claims) = 2)
  /\ Forall (fun g => Js.includes_colon g = false) (deriveGroups this claims).
Proof.
  intros Hoff. rewrite deriveGroups_eq, Hoff.
  destruct (Js.strict_eq_str (ref_protected claims) "true"); simpl.
  - split; [now right |]. split; [now right |]. repeat constructor.
  - split; [now left |]. split; [now left |]. repeat constructor.
Qed.

Lemma deriveGroups_without_project_groups_witness :
  projectGroups (test_plugin false) = false
  /\ (length (deriveGroups (test_plugin false) PROTECTED_BRANCH_PUSH) = 1
      \/ length (deriveGroups (test_plugin false) PROTECTED_BRANCH_PUSH) = 2)
  /\ Forall (fun g => Js.includes_colon g = false)
       (deriveGroups (test_plugin false) PROTECTED_BRANCH_PUSH).
Proof.
  split; [reflexivity |].
  apply (deriveGroups_without_project_groups (test_plugin false) PROTECTED_BRANCH_PUSH).
  reflexivity.
Defined.

(** ** C5: nothing removes duplicates *)

(** C5, as stated, fails: when [namespace_path] and [project_path] are the
    same string, with [project_groups] enabled, the same entry is in the
    list twice. *)
Lemma deriveGroups_repeats_an_entry :
  deriveGroups (test_plugin true)
    (with_paths PROTECTED_BRANCH_PUSH (Js.Str "false") (Js.Str "solo") (Js.Str "solo"))
  = ["gitlab-ci"; "gitlab:solo"; "gitlab:solo"]
  /\ ~ NoDup
       (deriveGroups (test_plugin true)
          (with_paths PROTECTED_BRANCH_PUSH (Js.Str "false") (Js.Str "solo") (Js.Str "solo"))).
Proof.
  split; [reflexivity |].
  change (deriveGroups _ _) with ["gitlab-ci"; "gitlab:solo"; "gitlab:solo"].
  intros Hnd. inversion Hnd as [| ? ? _ Hrest]; subst.
  inversion Hrest as [| ? ? Hnotin _]; subst.
  apply Hnotin. now left.
Qed.

Lemma scoped_inj (a b : string) : ("gitlab:" ++ a)%string = ("gitlab:" ++ b)%string -> a = b.
Proof. intros H. now injection H. Qed.

(** C5, amended: [deriveGroups] removes no duplicate. Its list is free of
    duplicates exactly when it does not push the same text for
    [namespace_path] and for [project_path], that is, unless
    [project_groups] is enabled and both paths are present and print to
    the same string; the entries are in the order they were pushed. *)
Theorem deriveGroups_NoDup_iff (this : GitLabOidcAuth) (claims : GitLabJwtClaims) :
  NoDup (deriveGroups this claims) <->
  ~ (projectGroups this = true
     /\ Js.truthy (namespace_path claims) = true
     /\ Js.truthy (project_path claims) = true
     /\ Js.ToString (namespace_path claims) = Js.ToString (project_path claims)).
Proof.
  rewrite deriveGroups_eq.
  set (a := Js.ToString (namespace_path claims)).
  set (b := Js.ToString (project_path claims)).
  assert (Hpair : a <> b -> forall base,
             base = ["gitlab-ci"] \/ base = ["gitlab-ci"; "gitlab-ci-protected"] ->
             NoDup (base ++ [("gitlab:" ++ a)%string; ("gitlab:" ++ b)%string])).
  { intros Hab base [-> | ->]; simpl; repeat constructor; simpl;
      intros Hin; decompose [or] Hin; try discriminate; try contradiction;
      match goal with
      | H : _ = _ |- _ => apply scoped_inj in H
      end; congruence. }
  assert (Hone : forall base path,
             base = ["gitlab-ci"] \/ base = ["gitlab-ci"; "gitlab-ci-protected"] ->
             NoDup (base ++ [("gitlab:" ++ path)%string])).
  { intros base path [-> | ->]; simpl; repeat constructor; simpl;
      intros Hin; decompose [or] Hin; try discriminate; try contradiction. }
  assert (Hnone : forall base,
             base = ["gitlab-ci"] \/ base = ["gitlab-ci"; "gitlab-ci-protected"] ->
             NoDup base).
  { intros base [-> | ->]; repeat constructor; simpl;
      intros Hin; decompose [or] Hin; try discriminate; try contradiction. }
  assert (Hbase : ["gitlab-ci"] ++
                  (if Js.strict_eq_str (ref_protected claims) "true"
                   then ["gitlab-ci-protected"] else []) = ["gitlab-ci"]
                  \/ ["gitlab-ci"] ++
                  (if Js.strict_eq_str (ref_protected claims) "true"
                   then ["gitlab-ci-protected"] else [])
                     = ["gitlab-ci"; "gitlab-ci-protected"]).
  { destruct (Js.strict_eq_str (ref_protected claims) "true"); [now right | now left]. }
  rewrite app_assoc.
  set (base := ["gitlab-ci"] ++ _) in *. clearbody base.
  destruct (projectGroups this), (Js.truthy (namespace_path claims)),
    (Js.truthy (project_path claims)); simpl;
    try (split; [intros _ (Hg & Hn & Hp & _); discriminate |]).
  - split.
    + intros Hnd (_ & _ & _ & Heq). rewrite Heq in Hnd.
      apply NoDup_remove_2 in Hnd. apply Hnd.
      apply in_or_app. right. now left.
    + intros Hneq. apply Hpair; [| exact Hbase].
      intros Heq. apply Hneq. repeat split. exact Heq.
  - intros _. now apply Hone.
  - intros _. now apply Hone.
  - intros _. rewrite app_nil_r. now apply Hnone.
  - intros _. rewrite app_nil_r. now apply Hnone.
  - intros _. rewrite app_nil_r. now apply Hnone.
  - intros _. rewrite app_nil_r. now apply Hnone.
  - intros _. rewrite app_nil_r. now apply Hnone.
Qed.

(** ** Stripping the trailing slashes of [gitlab_url] *)

Lemma only_slashes_slashes (n : nat) : Js.only_slashes (Js.slashes n) = true.
Proof. induction n as [| n IH]; [reflexivity | exact IH]. Qed.

Lemma only_slashes_eq (s : string) :
  Js.only_slashes s = true -> s = Js.slashes (String.length s).
Proof.
  induction s as [| c s IH]; simpl; [reflexivity |].
  intros H. apply andb_prop in H as [Hc Hs].
  unfold Js.is_slash in Hc. apply Ascii.eqb_eq in Hc. subst c.
  now rewrite <- IH.
Qed.

(** A text that does not end with a slash, followed by anything, is not
    made of slashes only. *)
Lemma only_slashes_app_false (s t : string) :
  s <> "" -> Js.ends_with_slash s = false -> Js.only_slashes (s ++ t) = false.
Proof.
  induction s as [| c s IH]; [contradiction |].
  intros _ Hend. simpl. destruct s as [| d s].
  - simpl in Hend. now rewrite Hend.
  - rewrite IH; [apply andb_false_r | discriminate | exact Hend].
Qed.

(** Any number of slashes after a text that ends with none are all
    removed, and nothing else is. *)
Lemma replace_trailing_slashes_app (base : string) (n : nat) :
  Js.ends_with_slash base = false ->
  Js.replace_trailing_slashes (base ++ Js.slashes n) = base.
Proof.
  induction base as [| c base IH]; intros Hend.
  - destruct n as [| n]; [reflexivity |].
    simpl. now rewrite only_slashes_slashes.
  - simpl. destruct base as [| d base].
    + simpl in Hend. now rewrite Hend, IH.
    + rewrite only_slashes_app_false, andb_false_r; [| discriminate | exact Hend].
      now rewrite IH.
Qed.

(** Every text is what [replace] leaves of it, followed by slashes only,
    and what [replace] leaves does not end with a slash. *)
Lemma replace_trailing_slashes_spec (s : string) :
  Js.ends_with_slash (Js.replace_trailing_slashes s) = false
  /\ exists n, s = (Js.replace_trailing_slashes s ++ Js.slashes n)%string.
Proof.
  induction s as [| c s [IHend [n IHn]]]; [split; [reflexivity | now exists 0] |].
  simpl. destruct (Js.is_slash c && Js.only_slashes s) eqn:E.
  - split; [reflexivity |]. exists (S (String.length s)).
    apply andb_prop in E as [Hc Hs].
    unfold Js.is_slash in Hc. apply Ascii.eqb_eq in Hc. subst c.
    simpl. now rewrite <- only_slashes_eq.
  - split.
    + destruct (Js.replace_trailing_slashes s) as [| d r] eqn:Er.
      * simpl in IHn. simpl.
        rewrite IHn, only_slashes_slashes, andb_true_r in E. exact E.
      * exact IHend.
    + exists n. simpl. now rewrite <- IHn.
Qed.

(** ** The trace of [verifyAndAuthenticate] *)

Lemma callbacks_app (tr tr' : list Event) :
  callbacks (tr ++ tr') = callbacks tr ++ callbacks tr'.
Proof.
  induction tr as [| e tr IH]; [reflexivity |].
  destruct e; simpl; now rewrite IH.
Qed.

(** What [verifyAndAuthenticate] does when the key source exists. *)
Lemma verifyAndAuthenticate_warm (lib : Jose) (this : GitLabOidcAuth) (token : string)
    (keys : RemoteJWKSet) :
  jwks this = Some keys ->
  let options := {| algorithms := ["RS256"]; issuer := gitlabUrl this;
                    expected_audience := audience this |} in
  verifyAndAuthenticate lib token this =
    match jwtVerify lib token keys options with
    | inl err => ([JwtVerify token keys options], this, inl err)
    | inr payload =>
        ([JwtVerify token keys options;
          LoggerInfo
            "gitlab-oidc-auth: verified token for @{project} ref=@{ref} job=@{job}"
            [("project", project_path payload); ("ref", ref payload);
             ("job", job_id payload)];
          DeriveGroups payload],
         this, inr (deriveGroups this payload))
    end.
Proof.
  intros Hkeys. unfold verifyAndAuthenticate, bind, self, emit, lift, ret. simpl.
  rewrite Hkeys. simpl.
  destruct (jwtVerify lib token keys _); reflexivity.
Qed.

(** What it does when the key source is still to be created. *)
Lemma verifyAndAuthenticate_cold (lib : Jose) (this : GitLabOidcAuth) (token : string) :
  jwks this = None ->
  let text := (gitlabUrl this ++ "/oauth/discovery/keys")%string in
  let options := {| algorithms := ["RS256"]; issuer := gitlabUrl this;
                    expected_audience := audience this |} in
  verifyAndAuthenticate lib token this =
    match new_URL lib text with
    | inl err => ([NewURL text], this, inl err)
    | inr href =>
        let keys := {| jwks_url := href; cacheMaxAge := jwksCacheTtl this * 1000 |} in
        match jwtVerify lib token keys options with
        | inl err =>
            ([NewURL text; CreateRemoteJWKSet href (jwksCacheTtl this * 1000);
              JwtVerify token keys options],
             with_jwks this keys, inl err)
        | inr payload =>
            ([NewURL text; CreateRemoteJWKSet href (jwksCacheTtl this * 1000);
              JwtVerify token keys options;
              LoggerInfo
                "gitlab-oidc-auth: verified token for @{project} ref=@{ref} job=@{job}"
                [("project", project_path payload); ("ref", ref payload);
                 ("job", job_id payload)];
              DeriveGroups payload],
             with_jwks this keys, inr (deriveGroups this payload))
        end
    end.
Proof.
  intros Hkeys.
  unfold verifyAndAuthenticate, bind, self, emit, lift, ret, set_jwks. simpl.
  rewrite Hkeys. simpl.
  destruct (new_URL lib _) as [err | href]; simpl; [reflexivity |].
  destruct (jwtVerify lib token _ _); reflexivity.
Qed.

(** [verifyAndAuthenticate] never calls the callback itself. *)
Lemma verifyAndAuthenticate_no_callback (lib : Jose) (this : GitLabOidcAuth) (token : string) :
  callbacks (fst (fst (verifyAndAuthenticate lib token this))) = [].
Proof.
  destruct (jwks this) as [keys |] eqn:Hkeys.
  - rewrite (verifyAndAuthenticate_warm lib this token keys Hkeys).
    cbv zeta. destruct (jwtVerify lib token keys _); reflexivity.
  - rewrite (verifyAndAuthenticate_cold lib this token Hkeys).
    cbv zeta. destruct (new_URL lib _); [reflexivity |].
    destruct (jwtVerify lib token _ _); reflexivity.
Qed.

(** A callback that returns is called once, and its first argument is
    [null]. *)
Lemma authenticate_calls_back_once (lib : Jose) (this : GitLabOidcAuth)
    (user password : string) :
  exists result,
    callbacks (fst (authenticate lib this user password)) = [(None, result)].
Proof.
  unfold authenticate. destruct (negb (String.eqb user (ciUsername this))).
  - now exists NotAuthenticated.
  - pose proof (verifyAndAuthenticate_no_callback lib this password) as Hnone.
    destruct (verifyAndAuthenticate lib password this) as [[tr this'] [err | groups]];
      simpl in *; rewrite callbacks_app, Hnone.
    + now exists NotAuthenticated.
    + now exists (Groups groups).
Qed.

(** ** C6: no claim is required *)

(** C6, as stated, fails: a verified payload that carries its registered
    claims and none of [sub], [ref], [ref_type], [ref_protected],
    [project_path], [namespace_path], [pipeline_source] authenticates,
    with the group ["gitlab-ci"]. *)
Lemma payload_without_claims_authenticates :
  (sub registered_claims_only = Js.Undefined
   /\ ref registered_claims_only = Js.Undefined
   /\ ref_type registered_claims_only = Js.Undefined
   /\ ref_protected registered_claims_only = Js.Undefined
   /\ project_path registered_claims_only = Js.Undefined
   /\ namespace_path registered_claims_only = Js.Undefined
   /\ pipeline_source registered_claims_only = Js.Undefined)
  /\ callbacks
       (fst (authenticate (checking_jose registered_claims_only) (test_plugin true)
               "gitlab-oidc" "valid"))
     = [(None, Groups ["gitlab-ci"])]
  /\ callbacks
       (fst (authenticate (checking_jose registered_claims_only) (test_plugin true)
               "gitlab-oidc" "valid"))
     <> [(None, NotAuthenticated)].
Proof.
  split; [repeat split |]. split; [reflexivity |].
  change (callbacks _) with [(@None Js.Error, Groups ["gitlab-ci"])].
  discriminate.
Qed.

(** C6, amended: no claim is required. Whenever the [jwtVerify] call that
    [verifyAndAuthenticate] makes (for this password, with the key source
    the instance holds, or the one it creates when it holds none, and with
    its own issuer and audience) resolves to a payload, whichever
    properties of that payload are absent, [authenticate] calls back with
    [null] and the groups that [deriveGroups] gives for it, the first of
    which is ["gitlab-ci"]. *)
Theorem authenticate_verified_payload (lib : Jose) (this : GitLabOidcAuth)
    (password : string) (keys : RemoteJWKSet) (payload : GitLabJwtClaims) :
  (jwks this = Some keys
   \/ (jwks this = None
       /\ exists href,
            new_URL lib (gitlabUrl this ++ "/oauth/discovery/keys")%string = inr href
            /\ keys = {| jwks_url := href; cacheMaxAge := jwksCacheTtl this * 1000 |})) ->
  jwtVerify lib password keys
    {| algorithms := ["RS256"]; issuer := gitlabUrl this;
       expected_audience := audience this |} = inr payload ->
  callbacks (fst (authenticate lib this (ciUsername this) password))
    = [(None, Groups (deriveGroups this payload))]
  /\ hd_error (deriveGroups this payload) = Some "gitlab-ci".
Proof.
  intros Hsource Hverify. split.
  - unfold authenticate. rewrite String.eqb_refl. simpl.
    destruct Hsource as [Hkeys | (Hkeys & href & Hurl & ->)].
    + rewrite (verifyAndAuthenticate_warm lib this password keys Hkeys).
      cbv zeta. rewrite Hverify. reflexivity.
    + rewrite (verifyAndAuthenticate_cold lib this password Hkeys).
      cbv zeta. rewrite Hurl, Hverify. reflexivity.
  - rewrite deriveGroups_eq. reflexivity.
Qed.

Lemma authenticate_verified_payload_witness :
  callbacks
    (fst (authenticate (checking_jose registered_claims_only) (test_plugin false)
            "gitlab-oidc" "valid"))
  = [(None, Groups (deriveGroups (test_plugin false) registered_claims_only))]
  /\ hd_error (deriveGroups (test_plugin false) registered_claims_only) = Some "gitlab-ci".
Proof.
  apply (authenticate_verified_payload (checking_jose registered_claims_only)
           (test_plugin false) "valid"
           {| jwks_url := "https://gitlab.example.com/oauth/discovery/keys";
              cacheMaxAge := 86400 * 1000 |}
           registered_claims_only).
  - right. split; [reflexivity |]. eexists. split; reflexivity.
  - reflexivity.
Defined.

(** ** C7: every failure is [false] *)

(** When [verifyAndAuthenticate] rejects, the error is the one [new URL]
    threw or the one [jwtVerify] rejected with: these are its only two
    ways to fail. *)
Lemma verifyAndAuthenticate_rejects (lib : Jose) (this : GitLabOidcAuth) (token : string)
    (tr : list Event) (this' : GitLabOidcAuth) (err : Js.Error) :
  verifyAndAuthenticate lib token this = (tr, this', inl err) ->
  (jwks this = None
   /\ new_URL lib (gitlabUrl this ++ "/oauth/discovery/keys")%string = inl err)
  \/ exists keys,
       jwks this' = Some keys
       /\ jwtVerify lib token keys
            {| algorithms := ["RS256"]; issuer := gitlabUrl this;
               expected_audience := audience this |} = inl err.
Proof.
  destruct (jwks this) as [keys |] eqn:Hkeys.
  - rewrite (verifyAndAuthenticate_warm lib this token keys Hkeys). cbv zeta.
    destruct (jwtVerify lib token keys _) as [e |] eqn:E; [| discriminate].
    intros [= <- <- <-]. right. exists keys. now split.
  - rewrite (verifyAndAuthenticate_cold lib this token Hkeys). cbv zeta.
    destruct (new_URL lib _) as [e | href] eqn:Eurl.
    + intros [= <- <- <-]. left. now split.
    + destruct (jwtVerify lib token _ _) as [e |] eqn:E; [| discriminate].
      intros [= <- <- <-]. right. eexists. split; [reflexivity | exact E].
Qed.

(** A rejection of [jwtVerify] is a rejection of [verifyAndAuthenticate]. *)
Lemma jwtVerify_rejection_propagates (lib : Jose) (this : GitLabOidcAuth) (token : string) :
  (forall keys options, exists err, jwtVerify lib token keys options = inl err) ->
  exists tr this' err, verifyAndAuthenticate lib token this = (tr, this', inl err).
Proof.
  intros Hrej. destruct (jwks this) as [keys |] eqn:Hkeys.
  - rewrite (verifyAndAuthenticate_warm lib this token keys Hkeys). cbv zeta.
    destruct (Hrej keys {| algorithms := ["RS256"]; issuer := gitlabUrl this;
                           expected_audience := audience this |}) as [err ->].
    now do 3 eexists.
  - rewrite (verifyAndAuthenticate_cold lib this token Hkeys). cbv zeta.
    destruct (new_URL lib _) as [e | href]; [now do 3 eexists |].
    destruct (Hrej {| jwks_url := href; cacheMaxAge := jwksCacheTtl this * 1000 |}
                {| algorithms := ["RS256"]; issuer := gitlabUrl this;
                   expected_audience := audience this |}) as [err ->].
    now do 3 eexists.
Qed.

(** C7: for every token, whenever [verifyAndAuthenticate] fails, at
    whatever stage and with whatever error, [authenticate] calls its
    callback once, with [null] and [false]; the error reaches the logger
    only. *)
Theorem authenticate_failure_is_false (lib : Jose) (this : GitLabOidcAuth)
    (password : string) (tr : list Event) (this' : GitLabOidcAuth) (err : Js.Error) :
  verifyAndAuthenticate lib password this = (tr, this', inl err) ->
  authenticate lib this (ciUsername this) password
    = (tr ++ [LoggerWarn "gitlab-oidc-auth: authentication failed — @{error}"
                [("error", Js.Str (Js.message err))];
              Callback None NotAuthenticated], this')
  /\ callbacks (fst (authenticate lib this (ciUsername this) password))
     = [(None, NotAuthenticated)].
Proof.
  intros Hrej.
  pose proof (verifyAndAuthenticate_no_callback lib this password) as Hnone.
  unfold authenticate. rewrite String.eqb_refl. simpl.
  rewrite Hrej in *. simpl in *. split; [reflexivity |].
  now rewrite callbacks_app, Hnone.
Qed.

Lemma authenticate_failure_is_false_witness :
  callbacks
    (fst (authenticate (test_jose PROTECTED_BRANCH_PUSH) (test_plugin false)
            "gitlab-oidc" "not-a-jwt"))
  = [(None, NotAuthenticated)].
Proof.
  apply (authenticate_failure_is_false (test_jose PROTECTED_BRANCH_PUSH) (test_plugin false)
           "not-a-jwt"
           [NewURL "https://gitlab.example.com/oauth/discovery/keys";
            CreateRemoteJWKSet "https://gitlab.example.com/oauth/discovery/keys" 86400000;
            JwtVerify "not-a-jwt"
              {| jwks_url := "https://gitlab.example.com/oauth/discovery/keys";
                 cacheMaxAge := 86400000 |}
              {| algorithms := ["RS256"]; issuer := "https://gitlab.example.com";
                 expected_audience := "https://npm.example.com" |}]
           (with_jwks (test_plugin false)
              {| jwks_url := "https://gitlab.example.com/oauth/discovery/keys";
                 cacheMaxAge := 86400000 |})
           {| Js.message := "Invalid Compact JWS" |}).
  reflexivity.
Defined.

(** ** C8: a configuration without [gitlab_url] or [audience] *)

(** C8: when [gitlab_url] or [audience] is missing from the configuration,
    the constructor throws, before it logs anything: there is no
    instance. *)
Theorem constructor_requires_url_and_audience (config : PluginConfig) :
  gitlab_url config = None \/ Types.audience config = None ->
  exists err, constructor config = ([], inl err).
Proof.
  intros Hmissing. unfold constructor.
  destruct (Js.falsy_string (gitlab_url config)) eqn:Eurl; [eexists; reflexivity |].
  destruct Hmissing as [Hurl | Haud].
  - rewrite Hurl in Eurl. discriminate.
  - rewrite Haud. simpl. eexists; reflexivity.
Qed.

Lemma constructor_requires_url_and_audience_witness :
  exists err,
    constructor {| gitlab_url := Some "https://gitlab.example.com";
                   Types.audience := None;
                   ci_username := None;
                   jwks_cache_ttl := None;
                   project_groups := None |} = ([], inl err).
Proof.
  apply constructor_requires_url_and_audience. right. reflexivity.
Defined.

(** The constructor throws in these cases only: otherwise both properties
    are non-empty strings and an instance is returned. *)
Lemma constructor_returns (config : PluginConfig) (tr : list Event) (this : GitLabOidcAuth) :
  constructor config = (tr, inr this) ->
  exists url aud,
    gitlab_url config = Some url /\ Types.audience config = Some aud
    /\ gitlabUrl this = Js.replace_trailing_slashes url
    /\ audience this = aud
    /\ jwks this = None.
Proof.
  unfold constructor.
  destruct (gitlab_url config) as [url |]; simpl; [| discriminate].
  destruct (String.eqb url ""); [discriminate |].
  destruct (Types.audience config) as [aud |]; simpl; [| discriminate].
  destruct (String.eqb aud ""); [discriminate |].
  intros [= <- <-]. now exists url, aud.
Qed.

(** ** C9: one normalized issuer *)

(** C9: when [gitlab_url] is [base] followed by any number of slashes
    (none included), [base] not ending with a slash, the instance keeps
    [base]; the text its first [authenticate] gives to [new URL] is [base]
    followed by ["/oauth/discovery/keys"], and the issuer it has
    [jwtVerify] expect is [base]. *)
Theorem gitlab_url_is_stripped_then_used_twice (lib : Jose) (config : PluginConfig)
    (base : string) (n : nat) (password : string)
    (log : list Event) (this : GitLabOidcAuth) :
  gitlab_url config = Some (base ++ Js.slashes n)%string ->
  Js.ends_with_slash base = false ->
  constructor config = (log, inr this) ->
  gitlabUrl this = base
  /\ url_texts (fst (authenticate lib this (ciUsername this) password))
     = [(base ++ "/oauth/discovery/keys")%string]
  /\ (forall href,
        new_URL lib (base ++ "/oauth/discovery/keys")%string = inr href ->
        expected_issuers (fst (authenticate lib this (ciUsername this) password))
        = [base]).
Proof.
  intros Hurl Hend Hnew.
  destruct (constructor_returns config log this Hnew)
    as (url & aud & Hurl' & _ & Hstripped & _ & Hkeys).
  rewrite Hurl in Hurl'. injection Hurl' as <-.
  rewrite (replace_trailing_slashes_app base n Hend) in Hstripped.
  split; [exact Hstripped |].
  unfold authenticate. rewrite String.eqb_refl. simpl.
  rewrite (verifyAndAuthenticate_cold lib this password Hkeys). cbv zeta.
  rewrite Hstripped. split.
  - destruct (new_URL lib _) as [err | href]; [reflexivity |].
    destruct (jwtVerify lib password _ _); reflexivity.
  - intros href ->. destruct (jwtVerify lib password _ _); reflexivity.
Qed.

Lemma gitlab_url_is_stripped_then_used_twice_witness :
  gitlabUrl (test_plugin false) = "https://gitlab.example.com"
  /\ url_texts
       (fst (authenticate (test_jose PROTECTED_BRANCH_PUSH) (test_plugin false)
               (ciUsername (test_plugin false)) "valid"))
     = ["https://gitlab.example.com/oauth/discovery/keys"]
  /\ (forall href,
        new_URL (test_jose PROTECTED_BRANCH_PUSH)
          "https://gitlab.example.com/oauth/discovery/keys" = inr href ->
        expected_issuers
          (fst (authenticate (test_jose PROTECTED_BRANCH_PUSH) (test_plugin false)
                  (ciUsername (test_plugin false)) "valid"))
        = ["https://gitlab.example.com"]).
Proof.
  apply (gitlab_url_is_stripped_then_used_twice (test_jose PROTECTED_BRANCH_PUSH)
           {| gitlab_url := Some "https://gitlab.example.com///";
              Types.audience := Some "https://npm.example.com";
              ci_username := None;
              jwks_cache_ttl := None;
              project_groups := None |}
           "https://gitlab.example.com" 3 "valid"
           [LoggerInfo
              "gitlab-oidc-auth: initialized (gitlab_url=@{gitlab_url}, audience=@{audience})"
              [("gitlab_url", Js.Str "https://gitlab.example.com");
               ("audience", Js.Str "https://npm.example.com")]]
           (test_plugin false));
    reflexivity.
Defined.

(** The issuer of every later call is the same text: each [jwtVerify] of
    an instance, whatever its state, expects [gitlabUrl]. *)
Lemma expected_issuer_is_gitlabUrl (lib : Jose) (this : GitLabOidcAuth)
    (user password : string) :
  Forall (fun i => i = gitlabUrl this)
    (expected_issuers (fst (authenticate lib this user password)))
  /\ gitlabUrl (snd (authenticate lib this user password)) = gitlabUrl this.
Proof.
  unfold authenticate. destruct (negb (String.eqb user (ciUsername this)));
    [split; [constructor | reflexivity] |].
  destruct (jwks this) as [keys |] eqn:Hkeys.
  - rewrite (verifyAndAuthenticate_warm lib this password keys Hkeys). cbv zeta.
    destruct (jwtVerify lib password keys _); simpl;
      (split; [repeat constructor | reflexivity]).
  - rewrite (verifyAndAuthenticate_cold lib this password Hkeys). cbv zeta.
    destruct (new_URL lib _) as [err | href]; simpl;
      [split; [constructor | reflexivity] |].
    destruct (jwtVerify lib password _ _); simpl;
      (split; [repeat constructor | reflexivity]).
Qed.

(** ** C10: another user name *)

(** C10: for a user name other than [ciUsername], the empty one included,
    and any password, [authenticate] does one thing: it calls the callback
    with [null] and [false]. It creates no key source, verifies no token,
    derives no group and leaves the instance as it was. *)
Theorem authenticate_other_user (lib : Jose) (this : GitLabOidcAuth)
    (user password : string) :
  user <> ciUsername this ->
  authenticate lib this user password = ([Callback None NotAuthenticated], this)
  /\ existsb is_verification_work (fst (authenticate lib this user password)) = false.
Proof.
  intros Hother.
  assert (E : authenticate lib this user password
              = ([Callback None NotAuthenticated], this)).
  { unfold authenticate.
    destruct (String.eqb_spec user (ciUsername this)); [contradiction | reflexivity]. }
  rewrite E. split; reflexivity.
Qed.

Lemma authenticate_other_user_witness :
  "" <> ciUsername (test_plugin true)
  /\ authenticate (test_jose PROTECTED_BRANCH_PUSH) (test_plugin true) "" "valid"
     = ([Callback None NotAuthenticated], test_plugin true).
Proof.
  split; [discriminate |].
  apply (authenticate_other_user (test_jose PROTECTED_BRANCH_PUSH) (test_plugin true)
           "" "valid").
  discriminate.
Defined.

(** * Further properties of [src/plugin.ts] *)

(** ** The constructor *)

(** X1: the constructor returns an instance exactly when [gitlab_url] and
    [audience] are both present and not the empty string: an empty string
    is refused like a missing property. *)
Theorem constructor_accepts_iff (config : PluginConfig) :
  (exists log this, constructor config = (log, inr this))
  <-> (exists url aud,
         gitlab_url config = Some url /\ Types.audience config = Some aud
         /\ url <> "" /\ aud <> "").
Proof.
  unfold constructor. split.
  - intros (log & this & H).
    destruct (gitlab_url config) as [url |]; simpl in H; [| discriminate].
    destruct (String.eqb_spec url ""); [discriminate |].
    destruct (Types.audience config) as [aud |]; simpl in H; [| discriminate].
    destruct (String.eqb_spec aud ""); [discriminate |].
    now exists url, aud.
  - intros (url & aud & -> & -> & Hurl & Haud). simpl.
    destruct (String.eqb_spec url ""); [contradiction |].
    destruct (String.eqb_spec aud ""); [contradiction |].
    now do 2 eexists.
Qed.

(** X2: when the constructor throws it has logged nothing, and [gitlab_url]
    is tested first: the message is the one about [gitlab_url] whenever
    that property is missing or empty, whatever [audience] is, and the one
    about [audience] only when [gitlab_url] is fine. *)
Theorem constructor_error_message (config : PluginConfig) (log : list Event)
    (err : Js.Error) :
  constructor config = (log, inl err) ->
  log = []
  /\ ((Js.falsy_string (gitlab_url config) = true
       /\ Js.message err = gitlab_url_required)
      \/ (Js.falsy_string (gitlab_url config) = false
          /\ Js.falsy_string (Types.audience config) = true
          /\ Js.message err = audience_required)).
Proof.
  unfold constructor.
  destruct (Js.falsy_string (gitlab_url config)).
  - intros [= <- <-]. split; [reflexivity |]. left. now split.
  - destruct (Js.falsy_string (Types.audience config)); [| discriminate].
    intros [= <- <-]. split; [reflexivity |]. right. now repeat split.
Qed.

Lemma constructor_error_message_witness :
  ([] : list Event) = []
  /\ ((Js.falsy_string None = true
       /\ Js.message {| Js.message := gitlab_url_required |} = gitlab_url_required)
      \/ (Js.falsy_string None = false
          /\ Js.falsy_string None = true
          /\ Js.message {| Js.message := gitlab_url_required |} = audience_required)).
Proof.
  apply (constructor_error_message
           {| gitlab_url := None; Types.audience := None; ci_username := None;
              jwks_cache_ttl := None; project_groups := None |}
           [] {| Js.message := gitlab_url_required |}).
  reflexivity.
Defined.

(** X3: for an instance the constructor has just built, a user name sets off
    verification work (a key source, a [jwtVerify], a derivation) exactly
    when it is the configured [ci_username], or ["gitlab-oidc"] when none
    is configured. [??] replaces an absent [ci_username] only: an empty one
    is kept, and then the empty user name is the one that triggers. *)
Theorem trigger_user_name (lib : Jose) (config : PluginConfig) (log : list Event)
    (this : GitLabOidcAuth) (user password : string) :
  constructor config = (log, inr this) ->
  existsb is_verification_work (fst (authenticate lib this user password)) = true
  <-> user = Js.nullish (ci_username config) DEFAULT_CI_USERNAME.
Proof.
  intros Hnew.
  assert (Hci : ciUsername this = Js.nullish (ci_username config) DEFAULT_CI_USERNAME).
  { unfold constructor in Hnew.
    destruct (Js.falsy_string (gitlab_url config)); [discriminate |].
    destruct (Js.falsy_string (Types.audience config)); [discriminate |].
    now injection Hnew as _ <-. }
  destruct (constructor_returns config log this Hnew) as (_ & _ & _ & _ & _ & _ & Hkeys).
  rewrite <- Hci. unfold authenticate.
  destruct (String.eqb_spec user (ciUsername this)) as [-> | Hne]; simpl.
  - split; [reflexivity | intros _].
    rewrite (verifyAndAuthenticate_cold lib this password Hkeys). cbv zeta.
    destruct (new_URL lib _); [reflexivity |].
    destruct (jwtVerify lib password _ _); reflexivity.
  - split; [discriminate | contradiction].
Qed.

Lemma trigger_user_name_witness :
  existsb is_verification_work
    (fst (authenticate (test_jose PROTECTED_BRANCH_PUSH) (test_plugin false)
            "gitlab-oidc" "valid")) = true
  <-> "gitlab-oidc" = Js.nullish None DEFAULT_CI_USERNAME.
Proof.
  apply (trigger_user_name (test_jose PROTECTED_BRANCH_PUSH) (test_config (Some false))
           [LoggerInfo
              "gitlab-oidc-auth: initialized (gitlab_url=@{gitlab_url}, audience=@{audience})"
              [("gitlab_url", Js.Str "https://gitlab.example.com");
               ("audience", Js.Str "https://npm.example.com")]]
           (test_plugin false) "gitlab-oidc" "valid").
  reflexivity.
Defined.

(** X4: whatever [gitlab_url] is configured, the [gitlabUrl] the instance
    keeps does not end with a slash, and the configured text is that
    [gitlabUrl] followed by slashes only: nothing but trailing slashes is
    ever removed. *)
Theorem constructor_gitlabUrl_shape (config : PluginConfig) (log : list Event)
    (this : GitLabOidcAuth) :
  constructor config = (log, inr this) ->
  Js.ends_with_slash (gitlabUrl this) = false
  /\ exists n, gitlab_url config = Some (gitlabUrl this ++ Js.slashes n)%string.
Proof.
  intros Hnew.
  destruct (constructor_returns config log this Hnew)
    as (url & aud & Hurl & _ & -> & _ & _).
  destruct (replace_trailing_slashes_spec url) as [Hend [n Hn]].
  split; [exact Hend |]. exists n. now rewrite <- Hn.
Qed.

Lemma constructor_gitlabUrl_shape_witness :
  Js.ends_with_slash (gitlabUrl (test_plugin true)) = false
  /\ exists n,
       gitlab_url (test_config (Some true))
       = Some (gitlabUrl (test_plugin true) ++ Js.slashes n)%string.
Proof.
  apply (constructor_gitlabUrl_shape (test_config (Some true))
           [LoggerInfo
              "gitlab-oidc-auth: initialized (gitlab_url=@{gitlab_url}, audience=@{audience})"
              [("gitlab_url", Js.Str "https://gitlab.example.com");
               ("audience", Js.Str "https://npm.example.com")]]
           (test_plugin true)).
  reflexivity.
Defined.

(** X5: the test for a missing [gitlab_url] comes before the slashes are
    removed: a [gitlab_url] made of slashes only is accepted, the instance
    keeps the empty string, and the text its first [authenticate] gives to
    [new URL] is ["/oauth/discovery/keys"], with no origin. *)
Theorem constructor_accepts_slashes_only (lib : Jose) (config : PluginConfig) (n : nat)
    (aud password : string) :
  gitlab_url config = Some (Js.slashes (S n)) ->
  Types.audience config = Some aud ->
  aud <> "" ->
  exists log this,
    constructor config = (log, inr this)
    /\ gitlabUrl this = ""
    /\ url_texts (fst (authenticate lib this (ciUsername this) password))
       = ["/oauth/discovery/keys"].
Proof.
  intros Hurl Haud Hne. unfold constructor. rewrite Hurl, Haud. simpl.
  destruct (String.eqb_spec aud ""); [contradiction |].
  rewrite only_slashes_slashes. do 2 eexists. split; [reflexivity |].
  split; [reflexivity |].
  unfold authenticate. rewrite String.eqb_refl. simpl.
  rewrite verifyAndAuthenticate_cold by reflexivity. cbv zeta. simpl.
  destruct (new_URL lib _); [reflexivity |].
  destruct (jwtVerify lib password _ _); reflexivity.
Qed.

Lemma constructor_accepts_slashes_only_witness :
  exists log this,
    constructor {| gitlab_url := Some "///"; Types.audience := Some "npm";
                   ci_username := None; jwks_cache_ttl := None;
                   project_groups := None |} = (log, inr this)
    /\ gitlabUrl this = ""
    /\ url_texts
         (fst (authenticate (test_jose empty_payload) this (ciUsername this) "valid"))
       = ["/oauth/discovery/keys"].
Proof.
  apply (constructor_accepts_slashes_only (test_jose empty_payload)
           {| gitlab_url := Some "///"; Types.audience := Some "npm";
              ci_username := None; jwks_cache_ttl := None;
              project_groups := None |} 2 "npm" "valid");
    [reflexivity | reflexivity | discriminate].
Defined.

(** ** [replace] *)

Lemma prefix_app (s t : string) : String.prefix s (s ++ t) = true.
Proof.
  induction s as [| c s IH]; simpl; [now destruct t |].
  destruct (Ascii.ascii_dec c c) as [_ | Hne]; [exact IH | now elim Hne].
Qed.

(** X6: [replace(/\/+$/, "")] gives a prefix of its subject, leaves a
    subject that does not end with a slash as it is, and applied again it
    changes nothing. *)
Theorem replace_trailing_slashes_idempotent (s : string) :
  String.prefix (Js.replace_trailing_slashes s) s = true
  /\ (Js.ends_with_slash s = false -> Js.replace_trailing_slashes s = s)
  /\ Js.replace_trailing_slashes (Js.replace_trailing_slashes s)
     = Js.replace_trailing_slashes s.
Proof.
  destruct (replace_trailing_slashes_spec s) as [Hend [n Hn]].
  assert (Hzero : forall t, (t ++ Js.slashes 0)%string = t).
  { induction t as [| c t IH]; simpl; [reflexivity | f_equal; exact IH]. }
  split.
  - rewrite Hn at 2. apply prefix_app.
  - split.
    + intros Hs. rewrite <- (Hzero s) at 1. now apply replace_trailing_slashes_app.
    + rewrite <- (Hzero (Js.replace_trailing_slashes s)) at 1.
      now apply replace_trailing_slashes_app.
Qed.

(** ** The key source *)

(** X7: the key source is created once. When the instance has none and
    [new URL] accepts the text, the first [authenticate] for the CI user
    stores a key source for that URL with [jwksCacheTtl * 1000] as its
    maximal age, whether or not the token then verifies; the next
    [authenticate] builds no URL, hands that same key source to [jwtVerify]
    and leaves it in place. *)
Theorem key_source_is_created_once (lib lib' : Jose) (this : GitLabOidcAuth)
    (password password' href : string) :
  jwks this = None ->
  new_URL lib (gitlabUrl this ++ "/oauth/discovery/keys")%string = inr href ->
  let keys := {| jwks_url := href; cacheMaxAge := jwksCacheTtl this * 1000 |} in
  let this1 := snd (authenticate lib this (ciUsername this) password) in
  let second := authenticate lib' this1 (ciUsername this1) password' in
  jwks this1 = Some keys
  /\ url_texts (fst second) = []
  /\ map (fun call => snd (fst call)) (verify_calls (fst second)) = [keys]
  /\ snd second = this1.
Proof.
  intros Hnone Hurl keys this1 second.
  assert (H1 : this1 = with_jwks this keys).
  { unfold this1, authenticate. rewrite String.eqb_refl. simpl.
    rewrite (verifyAndAuthenticate_cold lib this password Hnone). cbv zeta.
    rewrite Hurl. destruct (jwtVerify lib password _ _); reflexivity. }
  assert (Hkeys : jwks this1 = Some keys) by now rewrite H1.
  split; [exact Hkeys |].
  unfold second, authenticate. rewrite String.eqb_refl. simpl.
  rewrite (verifyAndAuthenticate_warm lib' this1 password' keys Hkeys). cbv zeta.
  destruct (jwtVerify lib' password' keys _); repeat split.
Qed.

Lemma key_source_is_created_once_witness :
  let keys := {| jwks_url := "https://gitlab.example.com/oauth/discovery/keys";
                 cacheMaxAge := 86400 * 1000 |} in
  let this1 :=
    snd (authenticate (test_jose empty_payload) (test_plugin true)
           (ciUsername (test_plugin true)) "expired") in
  let second :=
    authenticate (test_jose empty_payload) this1 (ciUsername this1) "valid" in
  jwks this1 = Some keys
  /\ url_texts (fst second) = []
  /\ map (fun call => snd (fst call)) (verify_calls (fst second)) = [keys]
  /\ snd second = this1.
Proof.
  apply (key_source_is_created_once (test_jose empty_payload) (test_jose empty_payload)
           (test_plugin true) "expired" "valid"
           "https://gitlab.example.com/oauth/discovery/keys");
    reflexivity.
Defined.

(** X8: when [new URL] throws, nothing is kept: no key source is created,
    [jwtVerify] is not called, the error's message goes to the logger, the
    callback gets [null] and [false], and the instance is as before, so
    that the next call tries the URL again. *)
Theorem url_failure_keeps_nothing (lib : Jose) (this : GitLabOidcAuth)
    (password : string) (err : Js.Error) :
  jwks this = None ->
  new_URL lib (gitlabUrl this ++ "/oauth/discovery/keys")%string = inl err ->
  authenticate lib this (ciUsername this) password
  = ([NewURL (gitlabUrl this ++ "/oauth/discovery/keys")%string;
      LoggerWarn "gitlab-oidc-auth: authentication failed — @{error}"
        [("error", Js.Str (Js.message err))];
      Callback None NotAuthenticated], this)
  /\ verify_calls (fst (authenticate lib this (ciUsername this) password)) = [].
Proof.
  intros Hnone Hurl.
  assert (E : authenticate lib this (ciUsername this) password
              = ([NewURL (gitlabUrl this ++ "/oauth/discovery/keys")%string;
                  LoggerWarn "gitlab-oidc-auth: authentication failed — @{error}"
                    [("error", Js.Str (Js.message err))];
                  Callback None NotAuthenticated], this)).
  { unfold authenticate. rewrite String.eqb_refl. simpl.
    rewrite (verifyAndAuthenticate_cold lib this password Hnone). cbv zeta.
    now rewrite Hurl. }
  rewrite E. split; reflexivity.
Qed.

Lemma url_failure_keeps_nothing_witness :
  verify_calls
    (fst (authenticate
            {| new_URL := fun _ => inl {| Js.message := "Invalid URL" |};
               jwtVerify := jwtVerify (test_jose empty_payload) |}
            (test_plugin true) (ciUsername (test_plugin true)) "valid")) = [].
Proof.
  apply (url_failure_keeps_nothing
           {| new_URL := fun _ => inl {| Js.message := "Invalid URL" |};
              jwtVerify := jwtVerify (test_jose empty_payload) |}
           (test_plugin true) "valid" {| Js.message := "Invalid URL" |});
    reflexivity.
Defined.

(** X9: [authenticate] never changes the configuration of the instance
    (the URL, the audience, the CI user name, the cache age, the
    [projectGroups] switch); the key source is the only field it writes,
    and an instance that has one is left exactly as it was. *)
Theorem authenticate_keeps_configuration (lib : Jose) (this : GitLabOidcAuth)
    (user password : string) :
  let this' := snd (authenticate lib this user password) in
  gitlabUrl this' = gitlabUrl this
  /\ audience this' = audience this
  /\ ciUsername this' = ciUsername this
  /\ jwksCacheTtl this' = jwksCacheTtl this
  /\ projectGroups this' = projectGroups this
  /\ (forall keys, jwks this = Some keys -> this' = this).
Proof.
  cbv zeta. unfold authenticate.
  destruct (negb (String.eqb user (ciUsername this))); [now repeat split |].
  destruct (jwks this) as [keys |] eqn:Hkeys.
  - rewrite (verifyAndAuthenticate_warm lib this password keys Hkeys). cbv zeta.
    destruct (jwtVerify lib password keys _); now repeat split.
  - rewrite (verifyAndAuthenticate_cold lib this password Hkeys). cbv zeta.
    destruct (new_URL lib _); [repeat split; discriminate |].
    destruct (jwtVerify lib password _ _); repeat split; discriminate.
Qed.

(** ** What the callback gets *)

(** With a callback that returns, [authenticate_cb] is [authenticate]. *)
Lemma authenticate_cb_returning (lib : Jose) (cb : CallbackBehaviour)
    (this : GitLabOidcAuth) (user password : string) :
  (forall err result, cb err result = None) ->
  authenticate_cb lib cb this user password
  = (fst (authenticate lib this user password),
     snd (authenticate lib this user password), Settled).
Proof.
  intros Hreturns. unfold authenticate_cb, authenticate.
  destruct (negb (String.eqb user (ciUsername this)));
    [now rewrite Hreturns |].
  destruct (verifyAndAuthenticate lib password this) as [[tr this'] [err | groups]];
    simpl; now rewrite Hreturns.
Qed.


(** X11: groups are granted on a verified payload only. When the callback
    gets groups, the user is the CI user, [jwtVerify] has resolved for this
    very password, with RS256 as the only algorithm, the instance's
    [gitlabUrl] as issuer and its [audience] as audience, and the groups
    are the ones [deriveGroups] gives for the payload it resolved to, with
    ["gitlab-ci"] first. *)
Theorem groups_come_from_a_verified_payload (lib : Jose) (this : GitLabOidcAuth)
    (user password : string) (groups : list string) :
  In (None, Groups groups) (callbacks (fst (authenticate lib this user password))) ->
  user = ciUsername this
  /\ hd_error groups = Some "gitlab-ci"
  /\ exists keys payload,
       jwtVerify lib password keys
         {| algorithms := ["RS256"]; issuer := gitlabUrl this;
            expected_audience := audience this |} = inr payload
       /\ groups = deriveGroups this payload.
Proof.
  unfold authenticate.
  destruct (String.eqb_spec user (ciUsername this)) as [-> | Hne]; simpl.
  2: { intros [H | []]. discriminate H. }
  intros Hin. split; [reflexivity |].
  assert (Hgroups : exists keys payload,
             jwtVerify lib password keys
               {| algorithms := ["RS256"]; issuer := gitlabUrl this;
                  expected_audience := audience this |} = inr payload
             /\ groups = deriveGroups this payload).
  { destruct (jwks this) as [keys |] eqn:Hkeys.
    - rewrite (verifyAndAuthenticate_warm lib this password keys Hkeys) in Hin.
      cbv zeta in Hin.
      destruct (jwtVerify lib password keys _) as [err | payload] eqn:E;
        simpl in Hin; destruct Hin as [H | []]; [discriminate H |].
      injection H as <-. now exists keys, payload.
    - rewrite (verifyAndAuthenticate_cold lib this password Hkeys) in Hin.
      cbv zeta in Hin.
      destruct (new_URL lib _) as [err | href];
        [simpl in Hin; destruct Hin as [H | []]; discriminate H |].
      destruct (jwtVerify lib password _ _) as [err | payload] eqn:E;
        simpl in Hin; destruct Hin as [H | []]; [discriminate H |].
      injection H as <-. eexists _, payload. split; [exact E | reflexivity]. }
  split; [| exact Hgroups].
  destruct Hgroups as (keys & payload & _ & ->).
  rewrite deriveGroups_eq. reflexivity.
Qed.

Lemma groups_come_from_a_verified_payload_witness :
  "gitlab-oidc" = ciUsername (test_plugin false)
  /\ hd_error ["gitlab-ci"; "gitlab-ci-protected"] = Some "gitlab-ci"
  /\ exists keys payload,
       jwtVerify (test_jose PROTECTED_BRANCH_PUSH) "valid" keys
         {| algorithms := ["RS256"]; issuer := gitlabUrl (test_plugin false);
            expected_audience := audience (test_plugin false) |} = inr payload
       /\ ["gitlab-ci"; "gitlab-ci-protected"] = deriveGroups (test_plugin false) payload.
Proof.
  apply (groups_come_from_a_verified_payload (test_jose PROTECTED_BRANCH_PUSH)
           (test_plugin false) "gitlab-oidc" "valid" ["gitlab-ci"; "gitlab-ci-protected"]).
  left. reflexivity.
Defined.

(** X12: [authenticate] calls [jwtVerify] at most once, without retry, and
    only for the CI user; the token it passes is the password as it came,
    the only algorithm it allows is RS256, and the issuer and audience it
    expects are the instance's. *)
Theorem jwtVerify_is_called_at_most_once (lib : Jose) (this : GitLabOidcAuth)
    (user password : string) :
  length (verify_calls (fst (authenticate lib this user password))) <= 1
  /\ forall token keys options,
       In (token, keys, options)
         (verify_calls (fst (authenticate lib this user password))) ->
       user = ciUsername this
       /\ token = password
       /\ options = {| algorithms := ["RS256"]; issuer := gitlabUrl this;
                       expected_audience := audience this |}.
Proof.
  unfold authenticate.
  destruct (String.eqb_spec user (ciUsername this)) as [-> | Hne]; simpl.
  2: { split; [lia | intros ? ? ? []]. }
  destruct (jwks this) as [keys |] eqn:Hkeys.
  - rewrite (verifyAndAuthenticate_warm lib this password keys Hkeys). cbv zeta.
    destruct (jwtVerify lib password keys _); simpl;
      (split; [lia | intros ? ? ? [[= <- <- <-] | []]; now repeat split]).
  - rewrite (verifyAndAuthenticate_cold lib this password Hkeys). cbv zeta.
    destruct (new_URL lib _); simpl; [split; [lia | intros ? ? ? []] |].
    destruct (jwtVerify lib password _ _); simpl;
      (split; [lia | intros ? ? ? [[= <- <- <-] | []]; now repeat split]).
Qed.

(** ** [deriveGroups] *)

(** X13: the protected group cannot be forged through a path claim.
    ["gitlab-ci-protected"] is in the list exactly when [ref_protected] is
    the string ["true"], whatever [namespace_path] and [project_path]
    hold and whether or not [project_groups] is enabled; and
    ["gitlab-ci"] is always there, once. *)
Theorem protected_group_iff (this : GitLabOidcAuth) (claims : GitLabJwtClaims) :
  (In "gitlab-ci-protected" (deriveGroups this claims)
   <-> ref_protected claims = Js.Str "true")
  /\ count_occ string_dec (deriveGroups this claims) "gitlab-ci" = 1.
Proof.
  split.
  - split.
    + intros Hin.
      destruct (deriveGroups_entries this claims _ Hin)
        as [H | [[_ H] | [_ [path H]]]]; [discriminate H | exact H | discriminate H].
    + intros Hprot. rewrite deriveGroups_eq, Hprot. simpl. right. now left.
  - rewrite deriveGroups_eq.
    destruct (Js.strict_eq_str (ref_protected claims) "true"), (projectGroups this),
      (Js.truthy (namespace_path claims)), (Js.truthy (project_path claims));
      reflexivity.
Qed.

(** X14: enabling [project_groups] only adds entries, at the end. The list
    of an instance without [project_groups] is a prefix of the list any
    other instance gives for the same claims, and what follows it is at
    most two entries, each starting with ["gitlab:"]. *)
Theorem project_groups_only_adds (this this' : GitLabOidcAuth) (claims : GitLabJwtClaims) :
  projectGroups this = false ->
  exists scoped,
    deriveGroups this' claims = deriveGroups this claims ++ scoped
    /\ length scoped <= 2
    /\ Forall (fun g => String.prefix "gitlab:" g = true) scoped.
Proof.
  intros Hoff. rewrite !deriveGroups_eq, Hoff, app_nil_r.
  exists (if projectGroups this' then
            (if Js.truthy (namespace_path claims)
             then [("gitlab:" ++ Js.ToString (namespace_path claims))%string] else [])
            ++ (if Js.truthy (project_path claims)
                then [("gitlab:" ++ Js.ToString (project_path claims))%string] else [])
          else []).
  split; [now rewrite <- app_assoc |].
  assert (Hprefix : forall path, String.prefix "gitlab:" ("gitlab:" ++ path) = true).
  { intros path. apply (prefix_app "gitlab:" path). }
  destruct (projectGroups this'), (Js.truthy (namespace_path claims)),
    (Js.truthy (project_path claims)); simpl length;
    (split; [lia | repeat constructor; apply Hprefix]).
Qed.

Lemma project_groups_only_adds_witness :
  exists scoped,
    deriveGroups (test_plugin true) PROTECTED_BRANCH_PUSH
    = deriveGroups (test_plugin false) PROTECTED_BRANCH_PUSH ++ scoped
    /\ length scoped <= 2
    /\ Forall (fun g => String.prefix "gitlab:" g = true) scoped.
Proof.
  apply (project_groups_only_adds (test_plugin false) (test_plugin true)
           PROTECTED_BRANCH_PUSH).
  reflexivity.
Defined.

(** X15: a path that is absent, [null], the empty string, [false] or [0]
    adds no entry: with both paths falsy the list is the same with and
    without [project_groups]. In general the list has one entry, one more
    when [ref_protected] is ["true"], and with [project_groups] one more
    for each truthy path: between one and four. *)
Theorem deriveGroups_length (this : GitLabOidcAuth) (claims : GitLabJwtClaims) :
  length (deriveGroups this claims)
  = 1 + Nat.b2n (Js.strict_eq_str (ref_protected claims) "true")
    + Nat.b2n (projectGroups this && Js.truthy (namespace_path claims))
    + Nat.b2n (projectGroups this && Js.truthy (project_path claims))
  /\ 1 <= length (deriveGroups this claims) <= 4
  /\ (Js.truthy (namespace_path claims) = false ->
      Js.truthy (project_path claims) = false ->
      deriveGroups this claims
      = "gitlab-ci" :: (if Js.strict_eq_str (ref_protected claims) "true"
                        then ["gitlab-ci-protected"] else [])).
Proof.
  rewrite deriveGroups_eq.
  destruct (Js.strict_eq_str (ref_protected claims) "true"), (projectGroups this),
    (Js.truthy (namespace_path claims)), (Js.truthy (project_path claims));
    simpl; repeat split; try lia; intros; try discriminate; reflexivity.
Qed.

(** X16: a group ["gitlab:" + p] is granted exactly when [project_groups]
    is enabled and [p] is the text of a truthy [namespace_path] or of a
    truthy [project_path], as it came: a path is not trimmed, split or
    re-encoded, and no other path (an ancestor group, another project)
    gives the group. *)
Theorem scoped_group_iff (this : GitLabOidcAuth) (claims : GitLabJwtClaims) (p : string) :
  In ("gitlab:" ++ p)%string (deriveGroups this claims)
  <-> projectGroups this = true
      /\ ((Js.truthy (namespace_path claims) = true
           /\ Js.ToString (namespace_path claims) = p)
          \/ (Js.truthy (project_path claims) = true
              /\ Js.ToString (project_path claims) = p)).
Proof.
  rewrite deriveGroups_eq. split.
  - intros Hin.
    apply in_app_or in Hin as [[H | []] | Hin]; [discriminate H |].
    apply in_app_or in Hin as [Hin | Hin].
    { destruct (Js.strict_eq_str (ref_protected claims) "true");
        [destruct Hin as [H | []]; discriminate H | destruct Hin]. }
    destruct (projectGroups this); [| destruct Hin]. split; [reflexivity |].
    apply in_app_or in Hin as [Hin | Hin].
    + destruct (Js.truthy (namespace_path claims)); [| destruct Hin].
      destruct Hin as [H | []]. left. split; [reflexivity |]. now apply scoped_inj in H.
    + destruct (Js.truthy (project_path claims)); [| destruct Hin].
      destruct Hin as [H | []]. right. split; [reflexivity |]. now apply scoped_inj in H.
  - intros [-> [[-> <-] | [-> <-]]];
      apply in_or_app; right; apply in_or_app; right; apply in_or_app.
    + left. now left.
    + right. now left.
Qed.

(** ** From the configuration to the callback *)

(** X17: with the defaults. For an instance built from a configuration
    that sets neither [project_groups] nor [jwks_cache_ttl], the first
    [authenticate] of the CI user asks [jwtVerify] with a key source whose
    maximal age is 86400000 ms, and when the token verifies the callback
    gets ["gitlab-ci"], followed by ["gitlab-ci-protected"] when
    [ref_protected] is ["true"], and nothing else, whatever paths the
    payload holds. *)
Theorem default_configuration_end_to_end (lib : Jose) (config : PluginConfig)
    (log : list Event) (this : GitLabOidcAuth) (password href : string)
    (payload : GitLabJwtClaims) :
  constructor config = (log, inr this) ->
  project_groups config = None ->
  jwks_cache_ttl config = None ->
  new_URL lib (gitlabUrl this ++ "/oauth/discovery/keys")%string = inr href ->
  jwtVerify lib password {| jwks_url := href; cacheMaxAge := 86400000 |}
    {| algorithms := ["RS256"]; issuer := gitlabUrl this;
       expected_audience := audience this |} = inr payload ->
  callbacks (fst (authenticate lib this (ciUsername this) password))
  = [(None, Groups ("gitlab-ci" :: (if Js.strict_eq_str (ref_protected payload) "true"
                                    then ["gitlab-ci-protected"] else [])))].
Proof.
  intros Hnew Hgroups Httl Hurl Hverify.
  destruct (constructor_returns config log this Hnew) as (_ & _ & _ & _ & _ & _ & Hkeys).
  assert (Hfields : jwksCacheTtl this = 86400%Z /\ projectGroups this = false).
  { unfold constructor in Hnew.
    destruct (Js.falsy_string (gitlab_url config)); [discriminate |].
    destruct (Js.falsy_string (Types.audience config)); [discriminate |].
    injection Hnew as _ <-. simpl. now rewrite Hgroups, Httl. }
  destruct Hfields as [Hage Hoff].
  unfold authenticate. rewrite String.eqb_refl. simpl.
  rewrite (verifyAndAuthenticate_cold lib this password Hkeys). cbv zeta.
  rewrite Hurl, Hage. change (86400 * 1000)%Z with 86400000%Z. rewrite Hverify.
  simpl. rewrite deriveGroups_eq, Hoff, app_nil_r. reflexivity.
Qed.

Lemma default_configuration_end_to_end_witness :
  callbacks
    (fst (authenticate (test_jose PROTECTED_BRANCH_PUSH) (test_plugin false)
            (ciUsername (test_plugin false)) "valid"))
  = [(None, Groups ["gitlab-ci"; "gitlab-ci-protected"])].
Proof.
  apply (default_configuration_end_to_end (test_jose PROTECTED_BRANCH_PUSH)
           (test_config None)
           [LoggerInfo
              "gitlab-oidc-auth: initialized (gitlab_url=@{gitlab_url}, audience=@{audience})"
              [("gitlab_url", Js.Str "https://gitlab.example.com");
               ("audience", Js.Str "https://npm.example.com")]]
           (test_plugin false) "valid"
           "https://gitlab.example.com/oauth/discovery/keys" PROTECTED_BRANCH_PUSH);
    reflexivity.
Defined.
